(** * che-dashboard: the DevWorkspace plugin store and the error boundary

    A shallow embedding of

    - [src/store/DevWorkspacePlugins.ts]: the redux slice holding the list of
      DevWorkspace plugins, its reducer and its thunk [requestDwDevfiles];
    - [src/Layout/ErrorBoundary/index.tsx]: the React error boundary with its
      reload countdown.

    JavaScript objects that the code mutates in place (the [plugins] array)
    live in an explicit heap and are referred to by location; immutable
    objects (redux states, React states, actions) are records.  Code that
    can throw runs in a state-and-exception monad. *)

From Stdlib Require Import ZArith Ascii String Bool Lia.
From stdpp Require Import base option list gmap relations strings.

Local Open Scope string_scope.
Local Open Scope list_scope.
Local Open Scope stdpp_scope.

(** ** JavaScript prelude *)

Module Js.

(** An [Error] object.  A field is [None] when reading it gives
    [undefined]. *)
Record JsError := mkError { name : option string; message : option string }.

Definition new_Error (msg : string) : JsError :=
  {| name := Some "Error"; message := Some msg |}.

Definition new_TypeError (msg : string) : JsError :=
  {| name := Some "TypeError"; message := Some msg |}.

(** [Error.prototype.toString], which is what ['...' + e] calls. *)
Definition toString (e : JsError) : string :=
  let n := default "Error" (name e) in
  let m := default "" (message e) in
  if String.eqb n "" then m
  else if String.eqb m "" then n
  else n +:+ ": " +:+ m.

(** Truthiness of a value that is a string or [undefined]. *)
Definition truthy (s : option string) : bool :=
  match s with
  | Some s => negb (String.eqb s "")
  | None => false
  end.

(** The line feed of the escape [\n]. *)
Definition LF : string := String (ascii_of_nat 10) EmptyString.

(** How a computation ends: with a value or with a thrown error. *)
Inductive outcome (A : Type) : Type :=
| Return (a : A)
| Throw (e : JsError).
Arguments Return {A} a.
Arguments Throw {A} e.

(** Computations over a mutable world [W] that may throw. *)
Definition M (W A : Type) : Type := W -> W * outcome A.

Definition ret {W A} (a : A) : M W A := fun w => (w, Return a).

Definition throw {W A} (e : JsError) : M W A := fun w => (w, Throw e).

Definition bind {W A B} (c : M W A) (k : A -> M W B) : M W B :=
  fun w =>
    match c w with
    | (w', Return a) => k a w'
    | (w', Throw e) => (w', Throw e)
    end.

(** [try { c } catch (e) { handler e }]: what [c] did to the world before
    it threw stays done. *)
Definition try_catch {W A} (c : M W A) (handler : JsError -> M W A) : M W A :=
  fun w =>
    match c w with
    | (w', Return a) => (w', Return a)
    | (w', Throw e) => handler e w'
    end.

Definition get {W} : M W W := fun w => (w, Return w).
Definition modify {W} (f : W -> W) : M W unit := fun w => (f w, Return tt).

End Js.

Export Js.

Notation "x <- c ;; k" := (bind c (fun x => k))
  (at level 100, c at next level, right associativity).
Notation "c ;;; k" := (bind c (fun _ => k))
  (at level 100, right associativity).

(** ** src/store/DevWorkspacePlugins.ts *)

Module DevWorkspacePlugins.

(** Arrays are heap objects: [push] mutates them and every state that
    holds the same reference sees the change. *)
Definition loc := nat.
Definition Heap := gmap loc (list string).

(** What the [plugins] field of a state can hold at run time: a reference
    to an array, or a number (the value that [Array.prototype.push]
    returns). *)
Inductive value :=
| VArray (l : loc)
| VNumber (n : Z).

Record State := mkState { isLoading : bool; plugins : value }.

(** [RequestDwPluginAction], [ReceiveDwPluginAction], and any other redux
    action, of which only the [type] matters: a string different from the
    two literals above. *)
Inductive Action :=
| REQUEST_DW_PLUGIN
| RECEIVE_DW_PLUGIN (plugin : string)
| OTHER_ACTION (type : string).

Definition type (a : Action) : string :=
  match a with
  | REQUEST_DW_PLUGIN => "REQUEST_DW_PLUGIN"
  | RECEIVE_DW_PLUGIN _ => "RECEIVE_DW_PLUGIN"
  | OTHER_ACTION t => t
  end.

(** The array literal of [unloadedState] is allocated once, when the
    module is loaded. *)
Definition unloadedPlugins : loc := 0%nat.

Definition unloadedState : State :=
  {| isLoading := false; plugins := VArray unloadedPlugins |}.

Definition initialHeap : Heap := {[ unloadedPlugins := [] ]}.

(** The contents of an array. *)
Definition contents (l : loc) (h : Heap) : list string := default [] (h !! l).

(** [xs.includes(x)] on an array of strings. *)
Definition includes (xs : list string) (x : string) : bool :=
  bool_decide (x ∈ xs).

(** [a.push(x)]: appends in place and returns the new length. *)
Definition push (l : loc) (x : string) : M Heap Z :=
  fun h =>
    let xs := contents l h ++ [x] in
    (<[l := xs]> h, Return (Z.of_nat (length xs))).

(** [Object.assign({}, state, { isLoading: v })] *)
Definition assign_isLoading (state : State) (v : bool) : State :=
  {| isLoading := v; plugins := plugins state |}.

(** [Object.assign({}, state, { plugins: v })] *)
Definition assign_plugins (state : State) (v : value) : State :=
  {| isLoading := isLoading state; plugins := v |}.

(** The reducer.  It returns [None] where the JavaScript function returns
    [undefined]. *)
Definition reducer (state : option State) (incomingAction : Action)
  : M Heap (option State) :=
  match state with
  | None => ret (Some unloadedState)
  | Some state =>
      match incomingAction with
      | REQUEST_DW_PLUGIN => ret (Some (assign_isLoading state true))
      | RECEIVE_DW_PLUGIN plugin =>
          match plugins state with
          | VArray l =>
              h <- get ;;
              if includes (contents l h) plugin
              then ret (Some (assign_plugins state (VArray l)))
              else
                n <- push l plugin ;;
                ret (Some (assign_plugins state (VNumber n)))
          | VNumber _ =>
              (* a number has no method [includes] *)
              throw (new_TypeError "state.plugins.includes is not a function")
          end
      | OTHER_ACTION _ =>
          (* the [switch] has no [default]: the function ends without
             a [return] *)
          ret None
      end
  end.

(** The reducer applied to a sequence of actions, each to the state that
    the one before returned. *)
Fixpoint reduce_all (actions : list Action) (state : option State)
  : M Heap (option State) :=
  match actions with
  | [] => ret state
  | a :: rest => state' <- reducer state a ;; reduce_all rest state'
  end.

(** The redux store the thunk runs against, with a record of what the
    thunk dispatched and which URLs it asked the registry for. *)
Record World := mkWorld {
  heap : Heap;
  store : option State;
  dispatched : list Action;
  fetched : list string;
}.

(** redux's [dispatch]: the store's state becomes what the reducer
    returns; when the reducer throws the state stays and the error goes to
    the caller. *)
Definition dispatch (a : Action) : M World unit :=
  fun w =>
    let w1 := {| heap := heap w; store := store w;
                 dispatched := dispatched w ++ [a]; fetched := fetched w |} in
    match reducer (store w) a (heap w) with
    | (h', Return s') =>
        ({| heap := h'; store := s';
            dispatched := dispatched w1; fetched := fetched w1 |}, Return tt)
    | (h', Throw e) =>
        ({| heap := h'; store := store w1;
            dispatched := dispatched w1; fetched := fetched w1 |}, Throw e)
    end.

Section Thunk.

(** The registry service, [fetchDevfile] of
    [src/services/registry/devfiles]: for each URL, the devfile it
    resolves to or the error it rejects with. *)
Variable registry : string -> outcome string.

Definition fetchDevfile (url : string) : M World string :=
  fun w =>
    ({| heap := heap w; store := store w;
        dispatched := dispatched w; fetched := fetched w ++ [url] |},
     registry url).

(** The thunk of [actionCreators.requestDwDevfiles].  [Throw] stands for
    the rejection of the promise that the [async] function returns. *)
Definition requestDwDevfiles (url : string) : M World unit :=
  dispatch REQUEST_DW_PLUGIN ;;;
  try_catch
    (plugin <- fetchDevfile url ;;
     dispatch (RECEIVE_DW_PLUGIN plugin))
    (fun e =>
       throw (new_Error
                ("Failed to request devworkspace plugin, " +:+ LF +:+ toString e))).

End Thunk.

End DevWorkspacePlugins.

(** ** The regular expression of [testResourceNotFound] *)

Module RegExp.

(** The part of the pattern language that the literal
    [/loading chunk [\d]+ failed/i] uses: pattern characters, the class
    [[\d]], and the quantifier [+].

    A text is a sequence of 8-bit characters.  The characters of the
    pattern are ASCII, and without the flag [u] no character outside ASCII
    is canonicalized to an ASCII one, so that only the ASCII letters and
    digits of a message take part in a match. *)
Inductive atom :=
| Chr (c : ascii)
| Digit.

Inductive term :=
| One (a : atom)
| Plus (a : atom).

Definition pattern := list term.

Definition is_digit (c : ascii) : bool :=
  let n := nat_of_ascii c in (48 <=? n)%nat && (n <=? 57)%nat.

Definition toUpperCase (c : ascii) : ascii :=
  let n := nat_of_ascii c in
  if (97 <=? n)%nat && (n <=? 122)%nat then ascii_of_nat (n - 32) else c.

(** [Canonicalize] of the specification of the language: under the flag
    [i] a character is compared through its upper case. *)
Definition canonicalize (ignoreCase : bool) (c : ascii) : ascii :=
  if ignoreCase then toUpperCase c else c.

Definition atom_matches (ignoreCase : bool) (a : atom) (c : ascii) : bool :=
  match a with
  | Chr p => Ascii.eqb (canonicalize ignoreCase p) (canonicalize ignoreCase c)
  | Digit => is_digit c
  end.

(** [a+] followed by the rest of the pattern, whose matcher is [rest].
    [+] is greedy: it first tries to take one more character and falls
    back on the rest of the pattern. *)
Fixpoint match_plus (ignoreCase : bool) (a : atom) (rest : list ascii -> bool)
  (s : list ascii) : bool :=
  match s with
  | c :: s' =>
      atom_matches ignoreCase a c
      && (match_plus ignoreCase a rest s' || rest s')
  | [] => false
  end.

(** The backtracking matcher: does a prefix of the input match the
    pattern? *)
Fixpoint match_here (ignoreCase : bool) (p : pattern) : list ascii -> bool :=
  match p with
  | [] => fun _ => true
  | One a :: p' =>
      fun s =>
        match s with
        | c :: s' => atom_matches ignoreCase a c && match_here ignoreCase p' s'
        | [] => false
        end
  | Plus a :: p' => match_plus ignoreCase a (match_here ignoreCase p')
  end.

(** The match is tried at every index of the input, from the left. *)
Fixpoint search (ignoreCase : bool) (p : pattern) (s : list ascii) : bool :=
  match_here ignoreCase p s
  || match s with
     | [] => false
     | _ :: s' => search ignoreCase p s'
     end.

(** [RegExp.prototype.test] on a string. *)
Definition test (ignoreCase : bool) (p : pattern) (s : string) : bool :=
  search ignoreCase p (list_ascii_of_string s).

Definition literal (w : string) : pattern :=
  map (fun c => One (Chr c)) (list_ascii_of_string w).

(** What it means for a string to match a pattern, without an algorithm:
    [matches ic p m] when the whole of [m] is a match of [p]. *)
Inductive matches (ignoreCase : bool) : pattern -> list ascii -> Prop :=
| matches_nil : matches ignoreCase [] []
| matches_one a p c m :
    atom_matches ignoreCase a c = true ->
    matches ignoreCase p m ->
    matches ignoreCase (One a :: p) (c :: m)
| matches_plus a p c cs m :
    atom_matches ignoreCase a c = true ->
    Forall (fun x => atom_matches ignoreCase a x = true) cs ->
    matches ignoreCase p m ->
    matches ignoreCase (Plus a :: p) (c :: cs ++ m).

End RegExp.

(** ** src/Layout/ErrorBoundary/index.tsx *)

Module ErrorBoundary.

(** The numbers of the component are small integers, on which the
    arithmetic of JavaScript is exact. *)
Definition RELOAD_TIMEOUT_SEC : Z := 30.

(** React's [ErrorInfo]. *)
Record ErrorInfo := mkErrorInfo { componentStack : option string }.

(** The value [{}] of [activeItems], which the component never uses. *)
Inductive JsObject := EmptyObject.

Record State := mkState {
  hasError : bool;
  error : option JsError;
  errorInfo : option ErrorInfo;
  expanded : bool;
  activeItems : JsObject;
  shouldReload : bool;
  reloadAfter : Z;
}.

(** A key with its value in the object given to [setState]. *)
Inductive Field :=
| HasError (v : bool)
| Error_ (v : JsError)
| ErrorInfo_ (v : ErrorInfo)
| Expanded (v : bool)
| ShouldReload (v : bool)
| ReloadAfter (v : Z).

Definition assign (st : State) (f : Field) : State :=
  match f with
  | HasError v =>
      mkState v (error st) (errorInfo st) (expanded st) (activeItems st)
              (shouldReload st) (reloadAfter st)
  | Error_ v =>
      mkState (hasError st) (Some v) (errorInfo st) (expanded st)
              (activeItems st) (shouldReload st) (reloadAfter st)
  | ErrorInfo_ v =>
      mkState (hasError st) (error st) (Some v) (expanded st)
              (activeItems st) (shouldReload st) (reloadAfter st)
  | Expanded v =>
      mkState (hasError st) (error st) (errorInfo st) v (activeItems st)
              (shouldReload st) (reloadAfter st)
  | ShouldReload v =>
      mkState (hasError st) (error st) (errorInfo st) (expanded st)
              (activeItems st) v (reloadAfter st)
  | ReloadAfter v =>
      mkState (hasError st) (error st) (errorInfo st) (expanded st)
              (activeItems st) (shouldReload st) v
  end.

(** The shallow merge that React does with a partial state. *)
Definition merge (partial : list Field) (st : State) : State :=
  fold_left assign partial st.

(** An entry of the [DisposableCollection]: the only disposable that the
    component makes is [{ dispose: () => window.clearInterval(id) }]. *)
Inductive Disposable := ClearInterval (id : nat).

(** The mounted component with the parts of [window] that it touches. *)
Record Instance := mkInstance {
  state : State;
  toDispose : list Disposable;
  intervals : gset nat;   (* the ids of the intervals that are running *)
  nextInterval : nat;     (* the id that [setInterval] gives next *)
  reloads : nat;          (* the calls of [window.location.reload] *)
}.

Definition setState (partial : list Field) : M Instance unit :=
  modify (fun w =>
    mkInstance (merge partial (state w)) (toDispose w) (intervals w)
               (nextInterval w) (reloads w)).

(** [window.setInterval(callback, 1000)] with the countdown callback. *)
Definition setInterval : M Instance nat :=
  fun w =>
    (mkInstance (state w) (toDispose w) ({[ nextInterval w ]} ∪ intervals w)
                (S (nextInterval w)) (reloads w),
     Return (nextInterval w)).

Definition clearInterval (id : nat) (w : Instance) : Instance :=
  mkInstance (state w) (toDispose w) (intervals w ∖ {[ id ]})
             (nextInterval w) (reloads w).

Definition run_dispose (w : Instance) (d : Disposable) : Instance :=
  match d with
  | ClearInterval id => clearInterval id w
  end.

(** Modelled from the spec: [DisposableCollection] of
    [src/services/helpers/disposable], a collection of the resources that
    the component owns; [push] adds one and [dispose] is the single
    aggregate call that disposes all of them and leaves the collection
    empty. *)
Definition toDispose_push (d : Disposable) : M Instance unit :=
  modify (fun w =>
    mkInstance (state w) (toDispose w ++ [d]) (intervals w)
               (nextInterval w) (reloads w)).

Definition toDispose_dispose : M Instance unit :=
  modify (fun w =>
    let w' := fold_left run_dispose (toDispose w) w in
    mkInstance (state w') [] (intervals w') (nextInterval w') (reloads w')).

(** The state that the constructor sets. *)
Definition initialState : State :=
  {| hasError := false;
     error := None;
     errorInfo := None;
     expanded := false;
     activeItems := EmptyObject;
     shouldReload := false;
     reloadAfter := RELOAD_TIMEOUT_SEC |}.

Definition constructor : Instance :=
  {| state := initialState;
     toDispose := [];
     intervals := ∅;
     nextInterval := 1;
     reloads := 0 |}.

Definition getDerivedStateFromError : list Field := [HasError true].

(** [/loading chunk [\d]+ failed/i] *)
Definition resourceNotFound : RegExp.pattern :=
  RegExp.literal "loading chunk " ++ [RegExp.Plus RegExp.Digit]
  ++ RegExp.literal " failed".

(** The pattern in words: somewhere in the text stands "loading chunk ",
    then one digit or more, then " failed", the letters in either case. *)
Definition says_loading_chunk_failed (s : string) : Prop :=
  exists pre w1 ds w2 post : list ascii,
    list_ascii_of_string s = pre ++ w1 ++ ds ++ w2 ++ post
    /\ map RegExp.toUpperCase w1 = list_ascii_of_string "LOADING CHUNK "
    /\ ds <> []
    /\ Forall (fun c => RegExp.is_digit c = true) ds
    /\ map RegExp.toUpperCase w2 = list_ascii_of_string " FAILED".

(** [test] turns its argument into a string first. *)
Definition testResourceNotFound (error : JsError) : bool :=
  RegExp.test true resourceNotFound (default "undefined" (message error)).

Definition handleReloadNow : M Instance unit :=
  modify (fun w =>
    mkInstance (state w) (toDispose w) (intervals w) (nextInterval w)
               (S (reloads w))).

Definition handleStopCountdown : M Instance unit := toDispose_dispose.

Definition componentWillUnmount : M Instance unit := toDispose_dispose.

Definition handleToggleViewStack : M Instance unit :=
  w <- get ;;
  let expanded := negb (expanded (state w)) in
  setState [Expanded expanded].

(** The callback that [startCountdown] gives to [setInterval]. *)
Definition countdown : M Instance unit :=
  w <- get ;;
  let reloadAfter := (reloadAfter (state w) - 1)%Z in
  setState [ReloadAfter reloadAfter] ;;;
  if (reloadAfter =? 0)%Z then handleReloadNow else ret tt.

Definition startCountdown : M Instance unit :=
  id <- setInterval ;;
  toDispose_push (ClearInterval id).

Definition componentDidCatch (error : JsError) (errorInfo : ErrorInfo)
  : M Instance unit :=
  setState [HasError true; Error_ error; ErrorInfo_ errorInfo] ;;;
  if testResourceNotFound error
  then setState [ShouldReload true] ;;; startCountdown
  else ret tt.

(** *** Rendering *)

(** The handlers that the rendered links are bound to. *)
Inductive Handler :=
| OnToggleViewStack    (* [() => this.handleToggleViewStack()] *)
| OnReloadNow          (* [() => this.handleReloadNow()] *)
| OnStopCountdown.     (* [() => this.handleStopCountdown()] *)

(** What [render] can return: [undefined], a boolean (neither shows
    anything), a text, or an element with its props and children. *)
#[local] Unset Elimination Schemes.
Inductive ReactNode :=
| Undefined
| Boolean (b : bool)
| Text (s : string)
| Element (type : string) (props : list (string * PropValue))
          (children : list ReactNode)
with PropValue :=
| PBool (b : bool)
| PString (s : string)
| PNumber (n : Z)
| PCallback (h : Handler)
| PNode (n : ReactNode).
#[local] Set Elimination Schemes.

Record Props := mkProps { children : ReactNode }.

(** [o.f] throws when [o] is [undefined]; [o?.f] gives [undefined]. *)
Definition member {W A B} (o : option A) (f : A -> B) (key : string) : M W B :=
  match o with
  | Some a => ret (f a)
  | None =>
      throw (new_TypeError
               ("Cannot read property '" +:+ key +:+ "' of undefined"))
  end.

Definition optional_member {A B} (o : option A) (f : A -> option B)
  : option B :=
  match o with
  | Some a => f a
  | None => None
  end.

(** The value of [errorName]: a string (or [undefined]) read from the
    error, or the global function [Error]. *)
Inductive ErrorName :=
| NameOf (s : option string)
| ErrorConstructor.

(** The string that [+] turns an [ErrorName] into. *)
Definition ErrorName_toString (n : ErrorName) : string :=
  match n with
  | NameOf s => default "undefined" s
  | ErrorConstructor => "function Error() { [native code] }"
  end.

(** [a && b], for the child of the alert. *)
Definition and_then (a : bool) (b : ReactNode) : ReactNode :=
  if a then b else Boolean false.

(** The element [<Alert isInline variant={AlertVariant.danger} ...>] of
    [buildErrorMessageAlert], from its title, the text of its link and its
    child. *)
Definition dangerAlert (title actionErrorTitle : string) (child : ReactNode)
  : ReactNode :=
  Element "Alert"
    [("isInline", PBool true);
     ("variant", PString "danger");
     ("title", PString title);
     ("actionLinks",
      PNode (Element "AlertActionLink"
               [("onClick", PCallback OnToggleViewStack)]
               [Text actionErrorTitle]))]
    [child].

Definition buildErrorMessageAlert : M Instance ReactNode :=
  w <- get ;;
  let error := error (state w) in
  let errorInfo := errorInfo (state w) in
  let expanded := expanded (state w) in
  let actionErrorTitle := if expanded then "Hide stack" else "View stack" in
  errorName <-
    (if truthy (optional_member error name)
     then n <- member error name "name" ;; ret (NameOf n)
     else ret ErrorConstructor) ;;
  errorMessage <-
    (if truthy (optional_member error message)
     then m <- member error message "message" ;;
          ret (": " +:+ default "undefined" m)
     else ret "") ;;
  stack <-
    (if expanded
     then match errorInfo with
          | None => ret Undefined
          | Some _ =>
              componentStack <- member errorInfo componentStack "componentStack" ;;
              ret (Element "TextContent" []
                     [Element "Text" [("component", PString "pre")]
                        [match componentStack with
                         | Some s => Text s
                         | None => Undefined
                         end]])
          end
     else ret (Boolean false)) ;;
  ret (dangerAlert (ErrorName_toString errorName +:+ errorMessage)
         actionErrorTitle stack).

(** The no-break space of [&nbsp;], in UTF-8. *)
Definition nbsp : string :=
  String (ascii_of_nat 194) (String (ascii_of_nat 160) EmptyString).

Definition buildReloadAlert : M Instance ReactNode :=
  w <- get ;;
  let reloadAfter := reloadAfter (state w) in
  let willReload := shouldReload (state w) in
  if negb willReload then ret Undefined
  else
    ret (Element "Alert"
           [("isInline", PBool true);
            ("variant", PString "warning");
            ("title",
             PNode (Element "React.Fragment" []
                      [Element "span" []
                         [Text ("This page is reloading in" +:+ nbsp)];
                       Element "Pluralize"
                         [("singular", PString "second");
                          ("count", PNumber reloadAfter)] []]));
            ("actionLinks",
             PNode (Element "React.Fragment" []
                      [Element "AlertActionLink"
                         [("onClick", PCallback OnReloadNow)]
                         [Text "Reload now"];
                       Element "AlertActionLink"
                         [("onClick", PCallback OnStopCountdown)]
                         [Text "Stop countdown"]]))]
           []).

Definition render (props : Props) : M Instance ReactNode :=
  w <- get ;;
  let hasError := hasError (state w) in
  if negb hasError then ret (children props)
  else
    errorMessageAlert <- buildErrorMessageAlert ;;
    reloadAlert <- buildReloadAlert ;;
    ret (Element "PageSection"
           [("variant", PString "light"); ("isFilled", PBool true)]
           [reloadAlert; errorMessageAlert]).

(** Does a child show nothing?  React skips [undefined] and booleans. *)
Definition shows_nothing (n : ReactNode) : bool :=
  match n with
  | Undefined | Boolean _ => true
  | _ => false
  end.

(** *** The life of a mounted boundary *)

(** What can happen to a mounted boundary: React reports an error of the
    subtree (first to [getDerivedStateFromError], whose result it merges
    into the state, then to [componentDidCatch]), the user clicks a link,
    an interval fires, React unmounts the component. *)
Inductive Event :=
| DerivedStateFromError
| DidCatch (error : JsError) (errorInfo : ErrorInfo)
| ToggleViewStack
| ReloadNow
| StopCountdown
| Tick (id : nat)
| WillUnmount.

Definition handle (ev : Event) : M Instance unit :=
  match ev with
  | DerivedStateFromError => setState getDerivedStateFromError
  | DidCatch error errorInfo => componentDidCatch error errorInfo
  | ToggleViewStack => handleToggleViewStack
  | ReloadNow => handleReloadNow
  | StopCountdown => handleStopCountdown
  | Tick _ => countdown
  | WillUnmount => componentWillUnmount
  end.

(** An interval fires only while it is running. *)
Definition enabled (ev : Event) (w : Instance) : Prop :=
  match ev with
  | Tick id => id ∈ intervals w
  | _ => True
  end.

Inductive step (w : Instance) : Instance -> Prop :=
| step_event ev : enabled ev w -> step w (fst (handle ev w)).

(** [n] firings of the interval [id], one after the other; [None] when
    the interval is not running at one of them. *)
Fixpoint ticks (n : nat) (id : nat) (w : Instance) : option Instance :=
  match n with
  | O => Some w
  | S n' =>
      if bool_decide (id ∈ intervals w)
      then ticks n' id (fst (countdown w))
      else None
  end.

(** Every interval that runs has its disposable in the collection. *)
Definition owned (w : Instance) : Prop :=
  forall id, id ∈ intervals w -> ClearInterval id ∈ toDispose w.

End ErrorBoundary.

(** * Properties *)

(** ** The matcher *)

Module RegExpSpec.
Import RegExp.

Section Matcher.

Variable ignoreCase : bool.

Lemma match_here_spec (p : pattern) (s : list ascii) :
  match_here ignoreCase p s = true
  <-> exists m r, s = m ++ r /\ matches ignoreCase p m.
Proof.
  revert s. induction p as [|[a|a] p IH]; intros s.
  - split; [|reflexivity]. intros _. exists [], s. split; [reflexivity|constructor].
  - destruct s as [|c s]; cbn.
    + split; [discriminate|].
      intros (m & r & E & Hm). inversion Hm; subst. discriminate.
    + rewrite andb_true_iff, IH. split.
      * intros [Ha (m & r & -> & Hm)]. exists (c :: m), r.
        split; [reflexivity|now constructor].
      * intros (m & r & E & Hm). inversion Hm; subst.
        cbn in E. injection E as -> ->. eauto.
  - cbn. induction s as [|c s IHs]; cbn.
    + split; [discriminate|].
      intros (m & r & E & Hm). inversion Hm; subst. discriminate.
    + rewrite andb_true_iff, orb_true_iff, IHs, IH. split.
      * intros [Ha [(m & r & -> & Hm)|(m & r & -> & Hm)]].
        -- inversion Hm as [| |a' p' c' cs m0 Hc' Hcs Hm0]; subst.
           exists (c :: (c' :: cs) ++ m0), r.
           split; [reflexivity|]. constructor; auto.
        -- exists (c :: [] ++ m), r.
           split; [reflexivity|]. constructor; auto.
      * intros (m & r & E & Hm).
        inversion Hm as [| |a' p' c' cs m0 Hc' Hcs Hm0]; subst.
        cbn in E. injection E as -> ->. split; [assumption|].
        destruct cs as [|c1 cs]; cbn.
        -- right. eauto.
        -- left. exists (c1 :: cs ++ m0), r. split; [reflexivity|].
           inversion Hcs; subst. now constructor.
Qed.

Lemma search_spec (p : pattern) (s : list ascii) :
  search ignoreCase p s = true
  <-> exists pre m post, s = pre ++ m ++ post /\ matches ignoreCase p m.
Proof.
  induction s as [|c s IHs]; cbn; rewrite orb_true_iff, match_here_spec.
  - split.
    + intros [(m & r & E & Hm)|]; [|discriminate]. now exists [], m, r.
    + intros (pre & m & post & E & Hm). left.
      destruct pre; [|discriminate]. now exists m, post.
  - rewrite IHs. split.
    + intros [(m & r & E & Hm)|(pre & m & post & -> & Hm)].
      * now exists [], m, r.
      * now exists (c :: pre), m, post.
    + intros (pre & m & post & E & Hm). destruct pre as [|c' pre]; cbn in E.
      * left. now exists m, post.
      * right. injection E as -> ->. now exists pre, m, post.
Qed.

Lemma matches_app (p q : pattern) (m : list ascii) :
  matches ignoreCase (p ++ q) m
  <-> exists m1 m2,
        m = m1 ++ m2 /\ matches ignoreCase p m1 /\ matches ignoreCase q m2.
Proof.
  revert m. induction p as [|[a|a] p IH]; intros m; cbn.
  - split.
    + intros Hm. exists [], m. repeat split; [constructor|assumption].
    + intros (m1 & m2 & -> & H1 & H2). now inversion H1; subst.
  - split.
    + intros Hm. inversion Hm as [|a' p' c m' Hc Hm'|]; subst.
      apply IH in Hm' as (m1 & m2 & -> & H1 & H2).
      exists (c :: m1), m2. repeat split; [now constructor|assumption].
    + intros (m1 & m2 & -> & H1 & H2).
      inversion H1 as [|a' p' c m' Hc Hm'|]; subst.
      cbn. constructor; [assumption|]. apply IH. eauto.
  - split.
    + intros Hm. inversion Hm as [| |a' p' c cs m' Hc Hcs Hm']; subst.
      apply IH in Hm' as (m1 & m2 & -> & H1 & H2).
      exists (c :: cs ++ m1), m2.
      repeat split; [|now constructor|assumption].
      cbn. now rewrite app_assoc.
    + intros (m1 & m2 & -> & H1 & H2).
      inversion H1 as [| |a' p' c cs m' Hc Hcs Hm']; subst.
      cbn. rewrite <- app_assoc. constructor; [assumption..|].
      apply IH. eauto.
Qed.

Lemma matches_digits (m : list ascii) :
  matches ignoreCase [Plus Digit] m
  <-> m <> [] /\ Forall (fun c => is_digit c = true) m.
Proof.
  split.
  - intros Hm. inversion Hm as [| |a' p' c cs m' Hc Hcs Hm']; subst.
    inversion Hm'; subst. rewrite app_nil_r.
    split; [discriminate|]. now constructor.
  - intros [Hne Hall]. destruct m as [|c cs]; [congruence|].
    inversion Hall; subst. rewrite <- (app_nil_r cs).
    constructor; [assumption..|constructor].
Qed.

End Matcher.

(** Under the flag [i], a word of the pattern matches the texts that are
    the word up to the case of the letters. *)
Lemma matches_literal (w : string) (m : list ascii) :
  matches true (literal w) m
  <-> map toUpperCase m = map toUpperCase (list_ascii_of_string w).
Proof.
  unfold literal. revert m.
  induction (list_ascii_of_string w) as [|c cs IH]; intros m; cbn.
  - split.
    + intros Hm. now inversion Hm.
    + destruct m; [constructor|discriminate].
  - split.
    + intros Hm. inversion Hm as [|a' p' c' m' Hc Hm'|]; subst.
      cbn in Hc. apply Ascii.eqb_eq in Hc. cbn.
      f_equal; [now symmetry|now apply IH].
    + destruct m as [|c' m']; [discriminate|]. cbn.
      intros E. injection E as Hc Hm. constructor.
      * cbn. apply Ascii.eqb_eq. now symmetry.
      * now apply IH.
Qed.

End RegExpSpec.

(** ** The plugin store *)

Module DevWorkspacePluginsSpec.
Import DevWorkspacePlugins.

Lemma contents_lookup (h : Heap) (l : loc) (xs : list string) :
  h !! l = Some xs -> contents l h = xs.
Proof. intros H. unfold contents. now rewrite H. Qed.

Lemma includes_true (xs : list string) (p : string) :
  includes xs p = true <-> p ∈ xs.
Proof. unfold includes. apply bool_decide_eq_true. Qed.

Lemma includes_false (xs : list string) (p : string) :
  includes xs p = false <-> p ∉ xs.
Proof. unfold includes. apply bool_decide_eq_false. Qed.

(** A plugin that the list holds already: the reducer returns the same
    array, untouched. *)
Lemma reducer_receive_present (h : Heap) (s : State) (l : loc)
      (xs : list string) (p : string) :
  plugins s = VArray l ->
  h !! l = Some xs ->
  p ∈ xs ->
  reducer (Some s) (RECEIVE_DW_PLUGIN p) h
  = (h, Return (Some {| isLoading := isLoading s; plugins := VArray l |})).
Proof.
  intros Hs Hl Hin. unfold reducer. rewrite Hs.
  unfold bind, get. rewrite (contents_lookup _ _ _ Hl).
  apply includes_true in Hin. now rewrite Hin.
Qed.

(** A plugin that the list does not hold: [push] appends it to the array
    in place, and the new state holds the length that [push] returns. *)
Lemma reducer_receive_push (h : Heap) (s : State) (l : loc)
      (xs : list string) (p : string) :
  plugins s = VArray l ->
  h !! l = Some xs ->
  p ∉ xs ->
  reducer (Some s) (RECEIVE_DW_PLUGIN p) h
  = (<[l := xs ++ [p]]> h,
     Return (Some {| isLoading := isLoading s;
                     plugins := VNumber (Z.of_nat (length xs) + 1) |})).
Proof.
  intros Hs Hl Hin. unfold reducer. rewrite Hs.
  apply includes_false in Hin.
  unfold bind, get, push, ret. rewrite (contents_lookup _ _ _ Hl), Hin.
  rewrite (contents_lookup _ _ _ Hl), length_app, Nat2Z.inj_add.
  reflexivity.
Qed.

(** C1: for a plugin [p] that the list does not hold yet, the reducer does
    not return a state whose [plugins] is the old list with [p] appended as
    a new list: it appends [p] to the old array in place (every state that
    holds the array sees it grow), and the [plugins] field of the state it
    returns is no array but the number that [push] returns, the new
    length.  [isLoading] is unchanged. *)
Theorem reducer_receive_absent (h : Heap) (s : State) (l : loc)
        (xs : list string) (p : string) :
  plugins s = VArray l ->
  h !! l = Some xs ->
  p ∉ xs ->
  exists h' s',
    reducer (Some s) (RECEIVE_DW_PLUGIN p) h = (h', Return (Some s'))
    /\ plugins s' = VNumber (Z.of_nat (length xs) + 1)
    /\ isLoading s' = isLoading s
    /\ contents l h' = xs ++ [p]
    /\ (forall l', l' <> l -> h' !! l' = h !! l').
Proof.
  intros Hs Hl Hin.
  eexists _, _. split; [apply (reducer_receive_push h s l xs p Hs Hl Hin)|].
  cbn. repeat split.
  - unfold contents, Heap in *. now rewrite lookup_insert_eq.
  - intros l' Hne. unfold Heap in *. now rewrite lookup_insert_ne.
Qed.

Lemma reducer_receive_absent_witness :
  exists h' s',
    reducer (Some unloadedState) (RECEIVE_DW_PLUGIN "a") initialHeap
    = (h', Return (Some s'))
    /\ plugins s' = VNumber 1
    /\ isLoading s' = false
    /\ contents unloadedPlugins h' = ["a"]
    /\ (forall l', l' <> unloadedPlugins -> h' !! l' = initialHeap !! l').
Proof.
  apply (reducer_receive_absent initialHeap unloadedState unloadedPlugins [] "a").
  - reflexivity.
  - reflexivity.
  - apply not_elem_of_nil.
Defined.

(** C2: for an action whose type is neither of the two that the [switch]
    names, the reducer does not return the state: it returns
    [undefined]. *)
Theorem reducer_unknown_action (h : Heap) (s : State) (a : Action) :
  type a <> "REQUEST_DW_PLUGIN" ->
  type a <> "RECEIVE_DW_PLUGIN" ->
  reducer (Some s) a h = (h, Return None).
Proof.
  intros H1 H2. destruct a as [|p|t]; cbn in H1, H2.
  - now destruct H1.
  - now destruct H2.
  - reflexivity.
Qed.

Lemma reducer_unknown_action_witness :
  reducer (Some unloadedState) (OTHER_ACTION "@@INIT") initialHeap
  = (initialHeap, Return None).
Proof.
  apply (reducer_unknown_action initialHeap unloadedState (OTHER_ACTION "@@INIT"));
    cbn; discriminate.
Defined.

(** C3: for a plugin [p] that the list does not hold yet, receiving [p]
    twice does not give the [plugins] of receiving it once: the first
    application leaves a number in [plugins], and the second one throws a
    [TypeError], for a number has no [includes]. *)
Theorem reducer_receive_twice_throws (h : Heap) (s : State) (l : loc)
        (xs : list string) (p : string) :
  plugins s = VArray l ->
  h !! l = Some xs ->
  p ∉ xs ->
  reduce_all [RECEIVE_DW_PLUGIN p] (Some s) h
  = (<[l := xs ++ [p]]> h,
     Return (Some {| isLoading := isLoading s;
                     plugins := VNumber (Z.of_nat (length xs) + 1) |}))
  /\ reduce_all [RECEIVE_DW_PLUGIN p; RECEIVE_DW_PLUGIN p] (Some s) h
     = (<[l := xs ++ [p]]> h,
        Throw (new_TypeError "state.plugins.includes is not a function")).
Proof.
  intros Hs Hl Hin.
  pose proof (reducer_receive_push h s l xs p Hs Hl Hin) as Hfirst.
  split; cbn [reduce_all]; unfold bind at 1; rewrite Hfirst; reflexivity.
Qed.

Lemma reducer_receive_twice_throws_witness :
  reduce_all [RECEIVE_DW_PLUGIN "a"] (Some unloadedState) initialHeap
  = ({[ unloadedPlugins := ["a"] ]},
     Return (Some {| isLoading := false; plugins := VNumber 1 |}))
  /\ reduce_all [RECEIVE_DW_PLUGIN "a"; RECEIVE_DW_PLUGIN "a"]
       (Some unloadedState) initialHeap
     = ({[ unloadedPlugins := ["a"] ]},
        Throw (new_TypeError "state.plugins.includes is not a function")).
Proof.
  apply (reducer_receive_twice_throws initialHeap unloadedState unloadedPlugins [] "a").
  - reflexivity.
  - reflexivity.
  - apply not_elem_of_nil.
Defined.

(** Where the plugin is in the list already, receiving it again changes
    nothing, as often as it is received. *)
Lemma reducer_receive_present_twice (h : Heap) (s : State) (l : loc)
      (xs : list string) (p : string) :
  plugins s = VArray l ->
  h !! l = Some xs ->
  p ∈ xs ->
  reduce_all [RECEIVE_DW_PLUGIN p; RECEIVE_DW_PLUGIN p] (Some s) h
  = reduce_all [RECEIVE_DW_PLUGIN p] (Some s) h.
Proof.
  intros Hs Hl Hin. cbn [reduce_all]. unfold bind at 1 3.
  rewrite (reducer_receive_present h s l xs p Hs Hl Hin).
  unfold bind at 1.
  now rewrite (reducer_receive_present h
                 {| isLoading := isLoading s; plugins := VArray l |}
                 l xs p eq_refl Hl Hin).
Qed.

(** On the store as it is loaded, [RECEIVE(a)], [RECEIVE(b)], [RECEIVE(a)]
    stops at the second action. *)
Example reduce_all_a_b_a :
  reduce_all [RECEIVE_DW_PLUGIN "a"; RECEIVE_DW_PLUGIN "b"; RECEIVE_DW_PLUGIN "a"]
    (Some unloadedState) initialHeap
  = ({[ unloadedPlugins := ["a"] ]},
     Throw (new_TypeError "state.plugins.includes is not a function")).
Proof. vm_compute. reflexivity. Qed.

(** C8: whatever the state, [REQUEST_DW_PLUGIN] gives a state with
    [isLoading] true and the [plugins] of the state before; the heap is
    not touched. *)
Theorem reducer_request (h : Heap) (s : State) :
  exists s',
    reducer (Some s) REQUEST_DW_PLUGIN h = (h, Return (Some s'))
    /\ isLoading s' = true
    /\ plugins s' = plugins s.
Proof.
  exists (assign_isLoading s true). repeat split.
Qed.

Section FailedFetch.

Variable registry : string -> outcome string.

(** What a dispatch of [REQUEST_DW_PLUGIN] does to a store that holds a
    state. *)
Lemma dispatch_request (w : World) (s : State) :
  store w = Some s ->
  dispatch REQUEST_DW_PLUGIN w
  = ({| heap := heap w;
        store := Some (assign_isLoading s true);
        dispatched := dispatched w ++ [REQUEST_DW_PLUGIN];
        fetched := fetched w |}, Return tt).
Proof.
  intros Hs. unfold dispatch. rewrite Hs. reflexivity.
Qed.

(** C4: when the registry rejects the fetch of [url], the thunk has
    dispatched [REQUEST_DW_PLUGIN] and nothing else (no
    [RECEIVE_DW_PLUGIN]), has asked the registry once, and rejects with
    an [Error] that wraps the one of the registry; the store holds the
    state it held with [isLoading] set, and no array has changed. *)
Theorem requestDwDevfiles_rejected (url : string) (e : JsError)
        (w : World) (s : State) :
  registry url = Throw e ->
  store w = Some s ->
  exists w',
    requestDwDevfiles registry url w
    = (w', Throw (new_Error ("Failed to request devworkspace plugin, "
                              +:+ LF +:+ toString e)))
    /\ dispatched w' = dispatched w ++ [REQUEST_DW_PLUGIN]
    /\ fetched w' = fetched w ++ [url]
    /\ store w' = Some {| isLoading := true; plugins := plugins s |}
    /\ heap w' = heap w.
Proof.
  intros Hfail Hs. eexists. split.
  - unfold requestDwDevfiles, bind at 1.
    rewrite (dispatch_request w s Hs).
    unfold try_catch, bind, fetchDevfile. rewrite Hfail. reflexivity.
  - repeat split.
Qed.

End FailedFetch.

Lemma requestDwDevfiles_rejected_witness :
  exists w',
    requestDwDevfiles (fun _ => Throw (new_Error "Not Found"))
      "https://registry/devfile.yaml"
      {| heap := initialHeap; store := Some unloadedState;
         dispatched := []; fetched := [] |}
    = (w', Throw (new_Error ("Failed to request devworkspace plugin, "
                              +:+ LF +:+ "Error: Not Found")))
    /\ dispatched w' = [REQUEST_DW_PLUGIN]
    /\ fetched w' = ["https://registry/devfile.yaml"]
    /\ store w' = Some {| isLoading := true; plugins := VArray unloadedPlugins |}
    /\ heap w' = initialHeap.
Proof.
  apply (requestDwDevfiles_rejected
           (fun _ => Throw (new_Error "Not Found"))
           "https://registry/devfile.yaml" (new_Error "Not Found")
           {| heap := initialHeap; store := Some unloadedState;
              dispatched := []; fetched := [] |}
           unloadedState).
  - reflexivity.
  - reflexivity.
Defined.

End DevWorkspacePluginsSpec.

(** ** The error boundary *)

Module ErrorBoundarySpec.
Import RegExp RegExpSpec ErrorBoundary.

(** The test of [testResourceNotFound] finds the pattern exactly in the
    messages that hold it. *)
Lemma testResourceNotFound_spec (error : JsError) :
  testResourceNotFound error = true
  <-> says_loading_chunk_failed (default "undefined" (message error)).
Proof.
  unfold testResourceNotFound, test, says_loading_chunk_failed, resourceNotFound.
  rewrite search_spec. split.
  - intros (pre & m & post & E & Hm).
    apply matches_app in Hm as (w1 & m' & -> & H1 & Hm).
    apply matches_app in Hm as (ds & w2 & -> & H2 & H3).
    apply matches_literal in H1, H3. apply matches_digits in H2 as [Hne Hds].
    exists pre, w1, ds, w2, post. rewrite E, <- !app_assoc. auto.
  - intros (pre & w1 & ds & w2 & post & E & H1 & Hne & Hds & H2).
    exists pre, (w1 ++ ds ++ w2), post. rewrite E, <- !app_assoc.
    split; [reflexivity|].
    apply matches_app. exists w1, (ds ++ w2). split; [reflexivity|].
    split; [now apply matches_literal|].
    apply matches_app. exists ds, w2. split; [reflexivity|].
    split; [now apply matches_digits|now apply matches_literal].
Qed.

Lemma componentDidCatch_match (error : JsError) (errorInfo : ErrorInfo)
      (w : Instance) :
  testResourceNotFound error = true ->
  componentDidCatch error errorInfo w
  = ({| state :=
          merge [HasError true; Error_ error; ErrorInfo_ errorInfo;
                 ShouldReload true] (state w);
        toDispose := toDispose w ++ [ClearInterval (nextInterval w)];
        intervals := {[ nextInterval w ]} ∪ intervals w;
        nextInterval := S (nextInterval w);
        reloads := reloads w |}, Return tt).
Proof.
  intros Ht. unfold componentDidCatch. rewrite Ht. reflexivity.
Qed.

Lemma componentDidCatch_no_match (error : JsError) (errorInfo : ErrorInfo)
      (w : Instance) :
  testResourceNotFound error = false ->
  componentDidCatch error errorInfo w
  = ({| state :=
          merge [HasError true; Error_ error; ErrorInfo_ errorInfo] (state w);
        toDispose := toDispose w;
        intervals := intervals w;
        nextInterval := nextInterval w;
        reloads := reloads w |}, Return tt).
Proof.
  intros Ht. unfold componentDidCatch. rewrite Ht. reflexivity.
Qed.

(** C5: [componentDidCatch] sets [shouldReload] and arms the countdown (a
    new interval runs, and its disposable is in the collection) when the
    message of the error holds "loading chunk <digits> failed" in either
    case, and only then: for any other message it leaves [shouldReload],
    the intervals and the collection as they were.  On a fresh boundary
    "Loading chunk 42 failed." gives [shouldReload = true] and
    "Network error" gives [shouldReload = false]. *)
Theorem componentDidCatch_shouldReload (error : JsError)
        (errorInfo : ErrorInfo) (w : Instance) :
  (testResourceNotFound error = true
   <-> says_loading_chunk_failed (default "undefined" (message error)))
  /\ (if testResourceNotFound error
      then
        shouldReload (state (fst (componentDidCatch error errorInfo w))) = true
        /\ intervals (fst (componentDidCatch error errorInfo w))
           = {[ nextInterval w ]} ∪ intervals w
        /\ toDispose (fst (componentDidCatch error errorInfo w))
           = toDispose w ++ [ClearInterval (nextInterval w)]
      else
        shouldReload (state (fst (componentDidCatch error errorInfo w)))
        = shouldReload (state w)
        /\ intervals (fst (componentDidCatch error errorInfo w)) = intervals w
        /\ toDispose (fst (componentDidCatch error errorInfo w)) = toDispose w)
  /\ shouldReload
       (state (fst (componentDidCatch (new_Error "Loading chunk 42 failed.")
                      errorInfo constructor))) = true
  /\ shouldReload
       (state (fst (componentDidCatch (new_Error "Network error")
                      errorInfo constructor))) = false.
Proof.
  split; [apply testResourceNotFound_spec|]. split.
  - destruct (testResourceNotFound error) eqn:Ht.
    + rewrite (componentDidCatch_match _ _ _ Ht). repeat split.
    + rewrite (componentDidCatch_no_match _ _ _ Ht). repeat split.
  - split; reflexivity.
Qed.

(** *** The countdown *)

Lemma countdown_eq (w : Instance) :
  countdown w
  = ({| state := merge [ReloadAfter (reloadAfter (state w) - 1)] (state w);
        toDispose := toDispose w;
        intervals := intervals w;
        nextInterval := nextInterval w;
        reloads := if (reloadAfter (state w) - 1 =? 0)%Z
                   then S (reloads w) else reloads w |}, Return tt).
Proof.
  unfold countdown, bind, get, setState, modify. cbn.
  destruct (reloadAfter (state w) - 1 =? 0)%Z; reflexivity.
Qed.

(** The reloads that [n] firings add: one when the count passes through
    zero on the way, none otherwise. *)
Lemma ticks_spec (n id : nat) (w : Instance) :
  id ∈ intervals w ->
  exists w',
    ticks n id w = Some w'
    /\ reloadAfter (state w') = (reloadAfter (state w) - Z.of_nat n)%Z
    /\ intervals w' = intervals w
    /\ reloads w'
       = (reloads w
          + if (0 <? reloadAfter (state w))%Z
               && (reloadAfter (state w) <=? Z.of_nat n)%Z
            then 1 else 0)%nat.
Proof.
  revert w. induction n as [|n IH]; intros w Hid.
  - exists w. cbn [ticks]. repeat split; [lia|].
    destruct (Z.ltb_spec 0 (reloadAfter (state w))),
             (Z.leb_spec (reloadAfter (state w)) (Z.of_nat 0)); cbn; lia.
  - cbn [ticks]. rewrite (bool_decide_eq_true_2 _ Hid), countdown_eq. cbn [fst].
    destruct (IH {| state := merge [ReloadAfter (reloadAfter (state w) - 1)] (state w);
                    toDispose := toDispose w;
                    intervals := intervals w;
                    nextInterval := nextInterval w;
                    reloads := if (reloadAfter (state w) - 1 =? 0)%Z
                               then S (reloads w) else reloads w |} Hid)
      as (w' & Hw' & Hr & Hi & Hn).
    exists w'. cbn in Hr, Hi, Hn. repeat split; [assumption|lia|assumption|].
    rewrite Hn.
    destruct (Z.eqb_spec (reloadAfter (state w) - 1) 0),
             (Z.ltb_spec 0 (reloadAfter (state w) - 1)),
             (Z.leb_spec (reloadAfter (state w) - 1) (Z.of_nat n)),
             (Z.ltb_spec 0 (reloadAfter (state w))),
             (Z.leb_spec (reloadAfter (state w)) (Z.of_nat (S n))); cbn; lia.
Qed.

(** C6: each firing of the interval takes one from [reloadAfter]; from
    [reloadAfter = 30], with the interval running, [n] firings leave
    [30 - n] and have reloaded the page once if [n] is 30 or more, and
    not at all if [n] is less. *)
Theorem countdown_reloads_once (id : nat) (w : Instance) (n : nat) :
  reloadAfter (state w) = RELOAD_TIMEOUT_SEC ->
  id ∈ intervals w ->
  reloadAfter (state (fst (countdown w))) = (reloadAfter (state w) - 1)%Z
  /\ exists w',
       ticks n id w = Some w'
       /\ reloadAfter (state w') = (30 - Z.of_nat n)%Z
       /\ reloads w' = (reloads w + if (30 <=? n)%nat then 1 else 0)%nat.
Proof.
  intros H30 Hid. split; [now rewrite countdown_eq|].
  destruct (ticks_spec n id w Hid) as (w' & Hw' & Hr & _ & Hn).
  exists w'. unfold RELOAD_TIMEOUT_SEC in H30. rewrite H30 in Hr, Hn.
  repeat split; [assumption..|]. rewrite Hn.
  destruct (Z.leb_spec 30 (Z.of_nat n)), (Nat.leb_spec 30 n); cbn; lia.
Qed.

Lemma countdown_reloads_once_witness :
  reloadAfter
    (state (fst (countdown
                   (fst (componentDidCatch (new_Error "Loading chunk 42 failed.")
                           (mkErrorInfo None) constructor))))) = 29%Z
  /\ exists w',
       ticks 30 1
         (fst (componentDidCatch (new_Error "Loading chunk 42 failed.")
                 (mkErrorInfo None) constructor)) = Some w'
       /\ reloadAfter (state w') = 0%Z
       /\ reloads w' = 1%nat.
Proof.
  apply (countdown_reloads_once 1
           (fst (componentDidCatch (new_Error "Loading chunk 42 failed.")
                   (mkErrorInfo None) constructor)) 30).
  - reflexivity.
  - apply (bool_decide_unpack _). vm_compute. exact I.
Defined.

(** The link of the stack, clicked twice, leaves [expanded] as it was. *)
Lemma handleToggleViewStack_twice (w : Instance) :
  expanded (state (fst (handleToggleViewStack (fst (handleToggleViewStack w)))))
  = expanded (state w).
Proof. cbn. apply negb_involutive. Qed.

(** *** The trap *)

Lemma dispose_state (ds : list Disposable) (w : Instance) :
  state (fold_left run_dispose ds w) = state w.
Proof.
  revert w. induction ds as [|[id] ds IH]; intros w; cbn; [reflexivity|].
  now rewrite IH.
Qed.

Lemma handle_keeps_hasError (ev : Event) (w : Instance) :
  hasError (state w) = true ->
  hasError (state (fst (handle ev w))) = true.
Proof.
  intros H. destruct ev as [|error errorInfo| | | |id|]; cbn [handle].
  - reflexivity.
  - unfold componentDidCatch.
    destruct (testResourceNotFound error); reflexivity.
  - exact H.
  - exact H.
  - cbn. now rewrite dispose_state.
  - rewrite countdown_eq. exact H.
  - cbn. now rewrite dispose_state.
Qed.

(** C7: from a state with [hasError] true, whatever happens to the mounted
    boundary next (another error, a click on a link, a firing of the
    interval, the unmounting), and however many times, [hasError] is true
    afterwards. *)
Theorem hasError_never_resets (w w' : Instance) :
  hasError (state w) = true ->
  rtc step w w' ->
  hasError (state w') = true.
Proof.
  intros H Hsteps. induction Hsteps as [w|w w1 w2 Hstep _ IH]; [assumption|].
  apply IH. destruct Hstep as [ev _]. now apply handle_keeps_hasError.
Qed.

Lemma hasError_never_resets_witness :
  hasError
    (state (fst (handle ToggleViewStack
                   (fst (handle DerivedStateFromError constructor))))) = true.
Proof.
  apply (hasError_never_resets (fst (handle DerivedStateFromError constructor))).
  - reflexivity.
  - apply rtc_once. apply (step_event _ ToggleViewStack). exact I.
Defined.

(** *** Rendering *)

(** C9: with [hasError] false, [render] returns the children and nothing
    else, and changes nothing. *)
Theorem render_healthy (props : Props) (w : Instance) :
  hasError (state w) = false ->
  render props w = (w, Return (children props)).
Proof.
  intros H. unfold render, bind, get. now rewrite H.
Qed.

Lemma render_healthy_witness :
  render {| children := Text "workspaces" |} constructor
  = (constructor, Return (Text "workspaces")).
Proof.
  apply (render_healthy {| children := Text "workspaces" |} constructor).
  reflexivity.
Defined.

(** C10: in every state [buildErrorMessageAlert] returns a panel and
    reads no field of a missing value.  The title is the name of the
    error (the text of the function [Error] when there is no name)
    followed by ": " and the message, or by nothing when the error or its
    message is missing; without an [errorInfo] the child of the panel shows
    nothing.  Such a state is rendered: after [getDerivedStateFromError]
    alone [hasError] is true while [error] and [errorInfo] are still
    undefined, and [render] returns the page section with the panel. *)
Theorem buildErrorMessageAlert_total (props : Props) (w : Instance) :
  (exists stack,
     buildErrorMessageAlert w
     = (w, Return
             (dangerAlert
                ((match optional_member (error (state w)) name with
                  | Some n =>
                      if String.eqb n ""
                      then ErrorName_toString ErrorConstructor else n
                  | None => ErrorName_toString ErrorConstructor
                  end)
                 +:+ (match optional_member (error (state w)) message with
                      | Some m => if String.eqb m "" then "" else ": " +:+ m
                      | None => ""
                      end))
                (if expanded (state w) then "Hide stack" else "View stack")
                stack))
     /\ (errorInfo (state w) = None -> shows_nothing stack = true))
  /\ hasError (state (fst (handle DerivedStateFromError constructor))) = true
  /\ error (state (fst (handle DerivedStateFromError constructor))) = None
  /\ errorInfo (state (fst (handle DerivedStateFromError constructor))) = None
  /\ render props (fst (handle DerivedStateFromError constructor))
     = (fst (handle DerivedStateFromError constructor),
        Return
          (Element "PageSection"
             [("variant", PString "light"); ("isFilled", PBool true)]
             [Undefined;
              dangerAlert "function Error() { [native code] }" "View stack"
                (Boolean false)])).
Proof.
  split; [|repeat split].
  destruct w as [[he e i ex ai sr ra] td iv ni rl].
  destruct e as [[[n|] [m|]]|], i as [[cs]|], ex; cbn;
    repeat match goal with
      | |- context [String.eqb ?x ""] => destruct (String.eqb x "")
      end;
    cbn; eexists; (split; [reflexivity|]); cbn; congruence.
Qed.

End ErrorBoundarySpec.

(** ** More on the plugin store *)

Module DevWorkspacePluginsFacts.
Import DevWorkspacePlugins DevWorkspacePluginsSpec.

(** What one call of the reducer does to the heap: nothing, or one [push]. *)
Lemma reducer_heap (st : option State) (a : Action) (h : Heap) :
  fst (reducer st a h) = h
  \/ exists l p,
       includes (contents l h) p = false
       /\ fst (reducer st a h) = <[l := contents l h ++ [p]]> h.
Proof.
  destruct st as [s|]; [|now left].
  destruct a as [|p|t]; [now left| |now left].
  unfold reducer. destruct (plugins s) as [l|n]; [|now left].
  unfold bind, get. destruct (includes (contents l h) p) eqn:E; [now left|].
  right. exists l, p. split; [assumption|reflexivity].
Qed.

Lemma reducer_grows (st : option State) (a : Action) (h : Heap) (l : loc) :
  contents l h `prefix_of` contents l (fst (reducer st a h)).
Proof.
  destruct (reducer_heap st a h) as [->|(l0 & p & _ & ->)]; [reflexivity|].
  unfold contents at 2. unfold Heap in *.
  destruct (decide (l0 = l)) as [->|Hne].
  - rewrite lookup_insert_eq. cbn. now apply prefix_app_r.
  - rewrite lookup_insert_ne by assumption. reflexivity.
Qed.

(** X1: whatever the actions and the state, an array never loses an entry
    and never has one changed: what it held before is a prefix of what it
    holds after. *)
Theorem reduce_all_grows (actions : list Action) (st : option State)
        (h : Heap) (l : loc) :
  contents l h `prefix_of` contents l (fst (reduce_all actions st h)).
Proof.
  revert st h. induction actions as [|a rest IH]; intros st h; cbn [reduce_all].
  - reflexivity.
  - unfold bind. pose proof (reducer_grows st a h l) as H1.
    destruct (reducer st a h) as [h1 [st1|e]]; cbn [fst] in *.
    + etransitivity; [exact H1|apply IH].
    + exact H1.
Qed.

Lemma reducer_NoDup (st : option State) (a : Action) (h : Heap) :
  (forall l, NoDup (contents l h)) ->
  forall l, NoDup (contents l (fst (reducer st a h))).
Proof.
  intros Hh l. destruct (reducer_heap st a h) as [->|(l0 & p & Hp & ->)].
  - apply Hh.
  - unfold contents at 1. unfold Heap in *.
    destruct (decide (l0 = l)) as [->|Hne].
    + rewrite lookup_insert_eq. cbn.
      apply includes_false in Hp. apply NoDup_app. split; [|split].
      * apply Hh.
      * intros x Hx Hx'. apply list_elem_of_singleton in Hx'. now subst.
      * apply NoDup_singleton.
    + rewrite lookup_insert_ne by assumption. apply Hh.
Qed.

(** X2: the reducer keeps the arrays free of duplicates: if no array of the
    heap holds a plugin twice, none does after any sequence of actions. *)
Theorem reduce_all_NoDup (actions : list Action) (st : option State)
        (h : Heap) (l : loc) :
  (forall l', NoDup (contents l' h)) ->
  NoDup (contents l (fst (reduce_all actions st h))).
Proof.
  revert st h. induction actions as [|a rest IH]; intros st h Hh;
    cbn [reduce_all].
  - apply Hh.
  - unfold bind. pose proof (reducer_NoDup st a h Hh) as H1.
    destruct (reducer st a h) as [h1 [st1|e]]; cbn [fst] in *.
    + now apply IH.
    + apply H1.
Qed.

Lemma reduce_all_NoDup_witness :
  NoDup (contents unloadedPlugins
           (fst (reduce_all [RECEIVE_DW_PLUGIN "a"; REQUEST_DW_PLUGIN]
                   (Some unloadedState) initialHeap))).
Proof.
  apply (reduce_all_NoDup [RECEIVE_DW_PLUGIN "a"; REQUEST_DW_PLUGIN]
           (Some unloadedState) initialHeap unloadedPlugins).
  intros l'. unfold contents.
  destruct (initialHeap !! l') as [xs|] eqn:E; cbn.
  - unfold initialHeap in E.
    apply lookup_singleton_Some in E as [_ <-]. constructor.
  - constructor.
Defined.

(** X3: the reducer throws in one case only, a [RECEIVE_DW_PLUGIN] on a
    state whose [plugins] is a number; the error is then a [TypeError] and
    the heap is as it was. *)
Theorem reducer_throws_iff (st : option State) (a : Action) (h : Heap) :
  ((exists e, snd (reducer st a h) = Throw e)
   <-> exists s p n,
         st = Some s /\ a = RECEIVE_DW_PLUGIN p /\ plugins s = VNumber n)
  /\ (forall e,
        snd (reducer st a h) = Throw e ->
        e = new_TypeError "state.plugins.includes is not a function"
        /\ fst (reducer st a h) = h).
Proof.
  destruct st as [s|]; [|split; [split|]; cbn].
  - destruct a as [|p|t]; cbn.
    + split; [split|]; [intros [e [=]]|intros (?&?&?&_&[=]&_)|intros e [=]].
    + unfold reducer. destruct (plugins s) as [l|n] eqn:Hp.
      * unfold bind, get.
        destruct (includes (contents l h) p); cbn;
          (split; [split|]; [intros [e [=]]|intros (?&?&?&[= <-]&_&?); congruence
                            |intros e [=]]).
      * cbn. split; [split|].
        -- intros _. now exists s, p, n.
        -- intros _. eauto.
        -- intros e [= <-]. now split.
    + split; [split|]; [intros [e [=]]|intros (?&?&?&_&[=]&_)|intros e [=]].
  - intros [e [=]].
  - intros (?&?&?&[=]&_).
  - intros e [=].
Qed.

(** X4: the array of [unloadedState] is shared.  Once a plugin has been
    received on [unloadedState], the state that the reducer gives for an
    undefined state is [unloadedState] still, but its list is not empty any
    more: it holds the plugin. *)
Theorem unloadedState_shared (h : Heap) (xs : list string) (p : string)
        (a : Action) :
  h !! unloadedPlugins = Some xs ->
  p ∉ xs ->
  reducer None a (fst (reducer (Some unloadedState) (RECEIVE_DW_PLUGIN p) h))
  = (<[unloadedPlugins := xs ++ [p]]> h, Return (Some unloadedState))
  /\ contents unloadedPlugins (<[unloadedPlugins := xs ++ [p]]> h) = xs ++ [p].
Proof.
  intros Hl Hin.
  rewrite (reducer_receive_push h unloadedState unloadedPlugins xs p eq_refl Hl Hin).
  split; [reflexivity|].
  unfold contents, Heap in *. now rewrite lookup_insert_eq.
Qed.

Lemma unloadedState_shared_witness :
  reducer None (OTHER_ACTION "@@INIT")
    (fst (reducer (Some unloadedState) (RECEIVE_DW_PLUGIN "a") initialHeap))
  = (<[unloadedPlugins := ["a"]]> initialHeap, Return (Some unloadedState))
  /\ contents unloadedPlugins (<[unloadedPlugins := ["a"]]> initialHeap) = ["a"].
Proof.
  apply (unloadedState_shared initialHeap [] "a" (OTHER_ACTION "@@INIT")).
  - reflexivity.
  - apply not_elem_of_nil.
Defined.

(** *** The thunk *)

Section Requests.

Variable registry : string -> outcome string.

(** The thunk on a plugin that is new to the list. *)
Lemma request_new_plugin (url p : string) (w : World) (s : State)
      (l : loc) (xs : list string) :
  registry url = Return p ->
  store w = Some s ->
  plugins s = VArray l ->
  heap w !! l = Some xs ->
  p ∉ xs ->
  requestDwDevfiles registry url w
  = ({| heap := <[l := xs ++ [p]]> (heap w);
        store := Some {| isLoading := true;
                         plugins := VNumber (Z.of_nat (length xs) + 1) |};
        dispatched := (dispatched w ++ [REQUEST_DW_PLUGIN])
                      ++ [RECEIVE_DW_PLUGIN p];
        fetched := fetched w ++ [url] |}, Return tt).
Proof.
  intros Hreg Hs Hp Hl Hin.
  unfold requestDwDevfiles, bind at 1. rewrite (dispatch_request w s Hs).
  unfold try_catch, bind, fetchDevfile. rewrite Hreg. unfold dispatch.
  cbn [heap store dispatched fetched].
  now rewrite (reducer_receive_push (heap w) (assign_isLoading s true)
                 l xs p Hp Hl Hin).
Qed.


(** X6: on a store that holds a state, however the thunk ends (resolved,
    or rejected for whatever reason), it has asked the registry exactly
    once and it leaves [isLoading] true: nothing sets it back. *)
Theorem requestDwDevfiles_leaves_loading (url : string) (w : World)
        (s : State) :
  store w = Some s ->
  fetched (fst (requestDwDevfiles registry url w)) = fetched w ++ [url]
  /\ exists s',
       store (fst (requestDwDevfiles registry url w)) = Some s'
       /\ isLoading s' = true.
Proof.
  intros Hs.
  assert (exists w' o s',
             requestDwDevfiles registry url w = (w', o)
             /\ fetched w' = fetched w ++ [url]
             /\ store w' = Some s' /\ isLoading s' = true)
    as (w' & o & s' & -> & Hf & Hst & Hl).
  { unfold requestDwDevfiles, bind at 1. rewrite (dispatch_request w s Hs).
    unfold try_catch, bind, fetchDevfile.
    destruct (registry url) as [p|e]; cbn [heap store dispatched fetched].
    - unfold dispatch. cbn [heap store dispatched fetched].
      destruct (reducer (Some (assign_isLoading s true)) (RECEIVE_DW_PLUGIN p)
                  (heap w)) as [h' [st'|e]] eqn:E.
      + unfold reducer in E. cbn [plugins assign_isLoading] in E.
        destruct (plugins s) as [l|n]; [|discriminate].
        unfold bind, get in E.
        destruct (includes (contents l (heap w)) p);
          injection E as <- <-; eexists _, _, _; repeat split.
      + eexists _, _, _; repeat split.
    - eexists _, _, _; repeat split. }
  cbn [fst]. eauto.
Qed.


(** X8: after a request has brought a new plugin, a second request whose
    fetch succeeds is rejected all the same: the state holds a number for
    [plugins], the reducer throws on [RECEIVE_DW_PLUGIN], and the thunk wraps
    the [TypeError].  The array and the state stay as the first request left
    them. *)
Theorem requestDwDevfiles_second_rejected (url1 url2 p1 p2 : string)
        (w : World) (s : State) (l : loc) (xs : list string) :
  registry url1 = Return p1 ->
  registry url2 = Return p2 ->
  store w = Some s ->
  plugins s = VArray l ->
  heap w !! l = Some xs ->
  p1 ∉ xs ->
  (requestDwDevfiles registry url1 ;;; requestDwDevfiles registry url2) w
  = ({| heap := <[l := xs ++ [p1]]> (heap w);
        store := Some {| isLoading := true;
                         plugins := VNumber (Z.of_nat (length xs) + 1) |};
        dispatched := dispatched w
                      ++ [REQUEST_DW_PLUGIN; RECEIVE_DW_PLUGIN p1;
                          REQUEST_DW_PLUGIN; RECEIVE_DW_PLUGIN p2];
        fetched := fetched w ++ [url1; url2] |},
     Throw (new_Error ("Failed to request devworkspace plugin, " +:+ LF
                       +:+ "TypeError: state.plugins.includes is not a function"))).
Proof.
  intros Hreg1 Hreg2 Hs Hp Hl Hin. unfold bind at 1.
  rewrite (request_new_plugin url1 p1 w s l xs Hreg1 Hs Hp Hl Hin).
  unfold requestDwDevfiles, bind, try_catch, fetchDevfile, dispatch. cbn.
  rewrite Hreg2. cbn. rewrite <- !app_assoc. reflexivity.
Qed.

End Requests.


Lemma requestDwDevfiles_leaves_loading_witness :
  fetched (fst (requestDwDevfiles (fun _ => Throw (new_Error "Not Found"))
                  "https://registry/theia.yaml"
                  {| heap := initialHeap; store := Some unloadedState;
                     dispatched := []; fetched := [] |}))
  = ["https://registry/theia.yaml"]
  /\ exists s',
       store (fst (requestDwDevfiles (fun _ => Throw (new_Error "Not Found"))
                     "https://registry/theia.yaml"
                     {| heap := initialHeap; store := Some unloadedState;
                        dispatched := []; fetched := [] |})) = Some s'
       /\ isLoading s' = true.
Proof.
  apply (requestDwDevfiles_leaves_loading
           (fun _ => Throw (new_Error "Not Found"))
           "https://registry/theia.yaml"
           {| heap := initialHeap; store := Some unloadedState;
              dispatched := []; fetched := [] |}
           unloadedState).
  reflexivity.
Defined.


Lemma requestDwDevfiles_second_rejected_witness :
  (requestDwDevfiles (fun url => Return url) "a" ;;;
   requestDwDevfiles (fun url => Return url) "b")
    {| heap := initialHeap; store := Some unloadedState;
       dispatched := []; fetched := [] |}
  = ({| heap := {[ unloadedPlugins := ["a"] ]};
        store := Some {| isLoading := true; plugins := VNumber 1 |};
        dispatched := [REQUEST_DW_PLUGIN; RECEIVE_DW_PLUGIN "a";
                       REQUEST_DW_PLUGIN; RECEIVE_DW_PLUGIN "b"];
        fetched := ["a"; "b"] |},
     Throw (new_Error ("Failed to request devworkspace plugin, " +:+ LF
                       +:+ "TypeError: state.plugins.includes is not a function"))).
Proof.
  apply (requestDwDevfiles_second_rejected (fun url => Return url)
           "a" "b" "a" "b"
           {| heap := initialHeap; store := Some unloadedState;
              dispatched := []; fetched := [] |}
           unloadedState unloadedPlugins []).
  - reflexivity.
  - reflexivity.
  - reflexivity.
  - reflexivity.
  - reflexivity.
  - apply not_elem_of_nil.
Defined.

End DevWorkspacePluginsFacts.

(** ** More on the error boundary *)

Module ErrorBoundaryFacts.
Import RegExp RegExpSpec ErrorBoundary ErrorBoundarySpec.

(** *** The intervals and their disposal *)

Lemma dispose_intervals (ds : list Disposable) (w : Instance) (id : nat) :
  id ∈ intervals (fold_left run_dispose ds w)
  <-> id ∈ intervals w /\ ClearInterval id ∉ ds.
Proof.
  revert w. induction ds as [|[id'] ds IH]; intros w; cbn [fold_left].
  - split; [intros H; split; [assumption|apply not_elem_of_nil]|now intros [H _]].
  - rewrite IH. cbn. rewrite elem_of_difference, elem_of_singleton, not_elem_of_cons.
    split.
    + intros [[Hin Hne] Hds]. repeat split; [assumption|congruence|assumption].
    + intros [Hin [Hne Hds]]. repeat split; [assumption|congruence|assumption].
Qed.

Lemma dispose_releases (w : Instance) :
  owned w ->
  intervals (fst (toDispose_dispose w)) = ∅
  /\ toDispose (fst (toDispose_dispose w)) = []
  /\ state (fst (toDispose_dispose w)) = state w.
Proof.
  intros Hw. cbn. split; [|split; [reflexivity|apply dispose_state]].
  apply set_eq. intros id. rewrite dispose_intervals. split.
  - intros [Hin Hnot]. destruct Hnot. now apply Hw.
  - intros H. now apply not_elem_of_empty in H.
Qed.

Lemma handle_owned (ev : Event) (w : Instance) :
  owned w -> owned (fst (handle ev w)).
Proof.
  intros Hw. destruct ev as [|error errorInfo| | | |id|]; cbn [handle].
  - exact Hw.
  - destruct (testResourceNotFound error) eqn:Ht.
    + rewrite (componentDidCatch_match _ _ _ Ht). intros id. cbn.
      rewrite elem_of_union, elem_of_singleton, elem_of_app, list_elem_of_singleton.
      intros [->|Hin]; [now right|left; now apply Hw].
    + rewrite (componentDidCatch_no_match _ _ _ Ht). exact Hw.
  - exact Hw.
  - exact Hw.
  - unfold handleStopCountdown, owned.
    destruct (dispose_releases w Hw) as (Hiv & _ & _). rewrite Hiv.
    intros id H. now apply not_elem_of_empty in H.
  - rewrite countdown_eq. exact Hw.
  - unfold componentWillUnmount, owned.
    destruct (dispose_releases w Hw) as (Hiv & _ & _). rewrite Hiv.
    intros id H. now apply not_elem_of_empty in H.
Qed.

Lemma steps_owned (w w' : Instance) :
  owned w -> rtc step w w' -> owned w'.
Proof.
  intros H Hsteps. induction Hsteps as [w|w w1 w2 Hstep _ IH]; [assumption|].
  apply IH. destruct Hstep as [ev _]. now apply handle_owned.
Qed.

Lemma constructor_owned : owned constructor.
Proof. intros id H. now apply not_elem_of_empty in H. Qed.

(** X9: whatever happened to the boundary since it was constructed,
    unmounting it leaves no interval running and the collection empty; the
    state is not touched. *)
Theorem componentWillUnmount_releases (w : Instance) :
  rtc step constructor w ->
  intervals (fst (componentWillUnmount w)) = ∅
  /\ toDispose (fst (componentWillUnmount w)) = []
  /\ state (fst (componentWillUnmount w)) = state w.
Proof.
  intros Hw. apply dispose_releases.
  exact (steps_owned constructor w constructor_owned Hw).
Qed.

Lemma componentWillUnmount_releases_witness :
  intervals
    (fst (componentWillUnmount
            (fst (handle (DidCatch (new_Error "Loading chunk 42 failed.")
                            (mkErrorInfo None)) constructor)))) = ∅
  /\ toDispose
       (fst (componentWillUnmount
               (fst (handle (DidCatch (new_Error "Loading chunk 42 failed.")
                               (mkErrorInfo None)) constructor)))) = []
  /\ state
       (fst (componentWillUnmount
               (fst (handle (DidCatch (new_Error "Loading chunk 42 failed.")
                               (mkErrorInfo None)) constructor))))
     = state (fst (handle (DidCatch (new_Error "Loading chunk 42 failed.")
                             (mkErrorInfo None)) constructor)).
Proof.
  apply (componentWillUnmount_releases
           (fst (handle (DidCatch (new_Error "Loading chunk 42 failed.")
                           (mkErrorInfo None)) constructor))).
  apply rtc_once.
  apply (step_event _ (DidCatch (new_Error "Loading chunk 42 failed.")
                         (mkErrorInfo None))).
  exact I.
Defined.

(** X10: after "Stop countdown", on a boundary in whatever state it has
    come to, no interval can fire any more: the countdown does not go on
    and brings no reload. *)
Theorem handleStopCountdown_stops (w : Instance) (id n : nat) :
  rtc step constructor w ->
  ~ enabled (Tick id) (fst (handleStopCountdown w))
  /\ ticks (S n) id (fst (handleStopCountdown w)) = None.
Proof.
  intros Hw.
  destruct (dispose_releases w (steps_owned _ _ constructor_owned Hw))
    as (Hiv & _ & _).
  unfold handleStopCountdown. split.
  - cbn [enabled]. rewrite Hiv. apply not_elem_of_empty.
  - cbn [ticks]. rewrite Hiv. reflexivity.
Qed.

Lemma handleStopCountdown_stops_witness :
  ~ enabled (Tick 1)
      (fst (handleStopCountdown
              (fst (handle (DidCatch (new_Error "Loading chunk 42 failed.")
                              (mkErrorInfo None)) constructor))))
  /\ ticks 30 1
       (fst (handleStopCountdown
               (fst (handle (DidCatch (new_Error "Loading chunk 42 failed.")
                               (mkErrorInfo None)) constructor)))) = None.
Proof.
  apply (handleStopCountdown_stops
           (fst (handle (DidCatch (new_Error "Loading chunk 42 failed.")
                           (mkErrorInfo None)) constructor)) 1 29).
  apply rtc_once.
  apply (step_event _ (DidCatch (new_Error "Loading chunk 42 failed.")
                         (mkErrorInfo None))).
  exact I.
Defined.

(** *** Catching *)

(** X11: [componentDidCatch] makes up for [getDerivedStateFromError]: the
    boundary is in the same state whether React has merged the derived
    state first or not. *)
Theorem componentDidCatch_after_derived (error : JsError)
        (errorInfo : ErrorInfo) (w : Instance) :
  handle (DidCatch error errorInfo) (fst (handle DerivedStateFromError w))
  = handle (DidCatch error errorInfo) w.
Proof.
  cbn [handle]. destruct (testResourceNotFound error) eqn:Ht.
  - now rewrite !(componentDidCatch_match _ _ _ Ht).
  - now rewrite !(componentDidCatch_no_match _ _ _ Ht).
Qed.


(** *** The countdown, from any count *)



(** *** The links *)

(** X14: the link of the stack, clicked twice, leaves the boundary as it
    was, state, intervals and all. *)
Theorem handleToggleViewStack_involutive (w : Instance) :
  fst (handleToggleViewStack (fst (handleToggleViewStack w))) = w.
Proof.
  destruct w as [[he e i ex ai sr ra] td iv ni rl]. cbn.
  now rewrite negb_involutive.
Qed.

(** *** Rendering *)

Ltac run_render :=
  unfold render, buildErrorMessageAlert, buildReloadAlert, bind, get, ret,
    throw, member, optional_member, truthy;
  cbn;
  repeat match goal with
    | |- context [String.eqb ?x ""] => destruct (String.eqb x ""); cbn
    end.

Lemma render_state (props : Props) (w1 w2 : Instance) :
  state w1 = state w2 ->
  snd (render props w1) = snd (render props w2).
Proof.
  destruct w1 as [st1 td1 iv1 ni1 rl1], w2 as [st2 td2 iv2 ni2 rl2]. cbn.
  intros ->. destruct st2 as [he e i ex ai sr ra].
  destruct he, e as [[[n|] [m|]]|], i as [[cs]|], ex, sr;
    run_render; reflexivity.
Qed.

(** X15: once [hasError] is true, [render] never returns the children and
    never throws: it returns the page section with two children, the reload
    alert, which shows something exactly when [shouldReload] is true, and
    the error panel of [buildErrorMessageAlert], which always shows.  The
    boundary is left as it was. *)
Theorem render_trapped (props : Props) (w : Instance) :
  hasError (state w) = true ->
  exists reloadAlert errorMessageAlert,
    render props w
    = (w, Return (Element "PageSection"
                    [("variant", PString "light"); ("isFilled", PBool true)]
                    [reloadAlert; errorMessageAlert]))
    /\ buildReloadAlert w = (w, Return reloadAlert)
    /\ buildErrorMessageAlert w = (w, Return errorMessageAlert)
    /\ shows_nothing reloadAlert = negb (shouldReload (state w))
    /\ shows_nothing errorMessageAlert = false.
Proof.
  destruct w as [[he e i ex ai sr ra] td iv ni rl]. cbn. intros ->.
  destruct e as [[[n|] [m|]]|], i as [[cs]|], ex, sr;
    run_render; eexists _, _; repeat split.
Qed.

Lemma render_trapped_witness :
  exists reloadAlert errorMessageAlert,
    render {| children := Text "workspaces" |}
      (fst (handle DerivedStateFromError constructor))
    = (fst (handle DerivedStateFromError constructor),
       Return (Element "PageSection"
                 [("variant", PString "light"); ("isFilled", PBool true)]
                 [reloadAlert; errorMessageAlert]))
    /\ buildReloadAlert (fst (handle DerivedStateFromError constructor))
       = (fst (handle DerivedStateFromError constructor), Return reloadAlert)
    /\ buildErrorMessageAlert (fst (handle DerivedStateFromError constructor))
       = (fst (handle DerivedStateFromError constructor),
          Return errorMessageAlert)
    /\ shows_nothing reloadAlert = true
    /\ shows_nothing errorMessageAlert = false.
Proof.
  apply (render_trapped {| children := Text "workspaces" |}
           (fst (handle DerivedStateFromError constructor))).
  reflexivity.
Defined.

(** X16: "Stop countdown" does not take the reload alert away: what
    [render] returns after it is what it returned before, with the count
    where it stood. *)
Theorem handleStopCountdown_render (props : Props) (w : Instance) :
  snd (render props (fst (handleStopCountdown w))) = snd (render props w).
Proof.
  apply render_state. cbn. apply dispose_state.
Qed.

(** X17: for an error with a name and a message, both non-empty, the title
    of the panel is the text that [Error.prototype.toString] gives for the
    error: the name, ": ", the message. *)
Theorem title_is_toString (w : Instance) (e : JsError) :
  ErrorBoundary.error (state w) = Some e ->
  truthy (name e) = true ->
  truthy (message e) = true ->
  exists stack,
    buildErrorMessageAlert w
    = (w, Return (dangerAlert (toString e)
                    (if expanded (state w) then "Hide stack" else "View stack")
                    stack)).
Proof.
  destruct w as [[he e0 i ex ai sr ra] td iv ni rl]. cbn. intros ->.
  destruct e as [[n|] [m|]]; cbn; try discriminate.
  unfold toString. cbn.
  destruct (String.eqb n ""), (String.eqb m ""); cbn; try discriminate.
  intros _ _. destruct i as [[cs]|], ex; cbn; eexists; reflexivity.
Qed.

Lemma title_is_toString_witness :
  exists stack,
    buildErrorMessageAlert
      (fst (componentDidCatch (new_Error "Network error") (mkErrorInfo None)
              constructor))
    = (fst (componentDidCatch (new_Error "Network error") (mkErrorInfo None)
              constructor),
       Return (dangerAlert "Error: Network error" "View stack" stack)).
Proof.
  apply (title_is_toString
           (fst (componentDidCatch (new_Error "Network error")
                   (mkErrorInfo None) constructor))
           (new_Error "Network error")).
  - reflexivity.
  - reflexivity.
  - reflexivity.
Defined.

(** *** The test of the message *)

Lemma list_ascii_of_string_app (s1 s2 : string) :
  list_ascii_of_string (s1 +:+ s2)
  = list_ascii_of_string s1 ++ list_ascii_of_string s2.
Proof.
  induction s1 as [|c s1 IH]; simpl; [reflexivity|f_equal; exact IH].
Qed.

Lemma toUpperCase_idempotent (c : ascii) :
  toUpperCase (toUpperCase c) = toUpperCase c.
Proof. destruct c as [[] [] [] [] [] [] [] []]; reflexivity. Qed.

Lemma is_digit_toUpperCase (c : ascii) :
  is_digit (toUpperCase c) = is_digit c.
Proof. destruct c as [[] [] [] [] [] [] [] []]; reflexivity. Qed.

Lemma atom_matches_toUpperCase (a : atom) (c : ascii) :
  atom_matches true a (toUpperCase c) = atom_matches true a c.
Proof.
  destruct a as [p|]; cbn.
  - now rewrite toUpperCase_idempotent.
  - apply is_digit_toUpperCase.
Qed.

Lemma match_here_toUpperCase (p : pattern) (s : list ascii) :
  match_here true p (map toUpperCase s) = match_here true p s.
Proof.
  revert s. induction p as [|[a|a] p IH]; intros s; cbn.
  - reflexivity.
  - destruct s as [|c s]; cbn; [reflexivity|].
    now rewrite atom_matches_toUpperCase, IH.
  - induction s as [|c s IHs]; cbn; [reflexivity|].
    now rewrite atom_matches_toUpperCase, IHs, IH.
Qed.

Lemma search_toUpperCase (p : pattern) (s : list ascii) :
  search true p (map toUpperCase s) = search true p s.
Proof.
  induction s as [|c s IHs].
  - reflexivity.
  - cbn [map search]. rewrite IHs.
    now rewrite <- (match_here_toUpperCase p (c :: s)).
Qed.

(** X18: the test does not look at the case of the letters: two messages
    that are the same up to the case of their letters are both taken for a
    chunk error, or neither is. *)
Theorem testResourceNotFound_ignores_case (n1 n2 : option string)
        (m1 m2 : string) :
  map toUpperCase (list_ascii_of_string m1)
  = map toUpperCase (list_ascii_of_string m2) ->
  testResourceNotFound {| name := n1; message := Some m1 |}
  = testResourceNotFound {| name := n2; message := Some m2 |}.
Proof.
  intros H. unfold testResourceNotFound, test. cbn.
  rewrite <- (search_toUpperCase _ (list_ascii_of_string m1)), H.
  apply search_toUpperCase.
Qed.

Lemma testResourceNotFound_ignores_case_witness :
  testResourceNotFound
    {| name := Some "ChunkLoadError"; message := Some "LOADING CHUNK 7 FAILED" |}
  = testResourceNotFound
      {| name := Some "Error"; message := Some "Loading chunk 7 failed" |}.
Proof.
  apply (testResourceNotFound_ignores_case (Some "ChunkLoadError") (Some "Error")
           "LOADING CHUNK 7 FAILED" "Loading chunk 7 failed").
  reflexivity.
Defined.

(** X19: the test looks for the pattern anywhere in the message: a message
    that holds, between any two texts, a message that is taken for a chunk
    error is taken for one as well. *)
Theorem testResourceNotFound_anywhere (n1 n2 : option string)
        (before m after : string) :
  testResourceNotFound {| name := n1; message := Some m |} = true ->
  testResourceNotFound
    {| name := n2; message := Some (before +:+ m +:+ after) |} = true.
Proof.
  unfold testResourceNotFound, test. cbn. rewrite !search_spec.
  intros (pre & mid & post & E & Hm).
  exists (list_ascii_of_string before ++ pre), mid,
         (post ++ list_ascii_of_string after).
  split; [|assumption].
  rewrite !list_ascii_of_string_app, E, <- !app_assoc. reflexivity.
Qed.

Lemma testResourceNotFound_anywhere_witness :
  testResourceNotFound
    {| name := Some "Error";
       message := Some ("ChunkLoadError: " +:+ "Loading chunk 42 failed."
                        +:+ " (timeout: https://che/42.js)") |} = true.
Proof.
  apply (testResourceNotFound_anywhere (Some "Error") (Some "Error")
           "ChunkLoadError: " "Loading chunk 42 failed."
           " (timeout: https://che/42.js)").
  reflexivity.
Defined.

(** X20: a message without a digit is never taken for a chunk error, so
    that [componentDidCatch] leaves [shouldReload] and the intervals as
    they are. *)
Theorem testResourceNotFound_needs_digit (n : option string) (m : string)
        (errorInfo : ErrorInfo) (w : Instance) :
  Forall (fun c => is_digit c = false) (list_ascii_of_string m) ->
  testResourceNotFound {| name := n; message := Some m |} = false
  /\ shouldReload
       (state (fst (componentDidCatch {| name := n; message := Some m |}
                      errorInfo w)))
     = shouldReload (state w)
  /\ intervals (fst (componentDidCatch {| name := n; message := Some m |}
                       errorInfo w))
     = intervals w.
Proof.
  intros Hm.
  assert (Ht : testResourceNotFound {| name := n; message := Some m |} = false).
  { apply not_true_is_false. intros Ht.
    apply testResourceNotFound_spec in Ht.
    destruct Ht as (pre & w1 & ds & w2 & post & E & _ & Hne & Hds & _).
    cbn in E. rewrite E in Hm.
    destruct ds as [|d ds]; [congruence|].
    rewrite !Forall_app in Hm. destruct Hm as (_ & _ & Hd & _).
    inversion Hd; subst. inversion Hds; subst. congruence. }
  split; [assumption|].
  rewrite (componentDidCatch_no_match _ _ _ Ht). split; reflexivity.
Qed.

Lemma testResourceNotFound_needs_digit_witness :
  testResourceNotFound
    {| name := Some "Error"; message := Some "Loading chunk failed" |} = false
  /\ shouldReload
       (state (fst (componentDidCatch
                      {| name := Some "Error";
                         message := Some "Loading chunk failed" |}
                      (mkErrorInfo None) constructor)))
     = shouldReload (state constructor)
  /\ intervals (fst (componentDidCatch
                       {| name := Some "Error";
                          message := Some "Loading chunk failed" |}
                       (mkErrorInfo None) constructor))
     = intervals constructor.
Proof.
  apply (testResourceNotFound_needs_digit (Some "Error") "Loading chunk failed"
           (mkErrorInfo None) constructor).
  repeat constructor.
Defined.

End ErrorBoundaryFacts.
